(** * Cache hit-rate telemetry of [CubeFileOpenInterceptor]

    Shallow embedding of
    [src/aimagic/cube_torch/cube_torch/cube_file_open_interceptor.py].

    The Python class keeps all of its counters as class attributes of a
    singleton; here they are one explicit [state] record that every
    operation takes and returns.  Attributes the counters do not depend on
    ([_instance], [should_exit], [timer], the empty [__enter__]/[__exit__])
    are left out.  The leading underscore of the private attributes is
    dropped: [_last_cycle_hit_count] is [last_cycle_hit_count], and so on.

    Integers are [Z]; [preload_time] values and the results of Python's true
    division [/] are exact rationals [Q] (the report formats them with two
    decimals, see [fmt2]). *)

From Stdlib Require Import ZArith QArith Qround String List Lia Lqa.
Import ListNotations.

Open Scope Z_scope.

(** ** State: the class attributes *)

Record state := mkState {
  cube_root_dir : string;
  cube_cache_dir : string;
  last_cycle_hit_count : Z;
  last_cycle_miss_count : Z;
  last_cycle_preload_time : Q;
  total_count : Z;
  total_hit_count : Z;
  total_miss_count : Z;
  total_preload_time : Q
}.

(** Values of the class attributes when the module is loaded. *)
Definition init_state : state := {|
  cube_root_dir := "/tmp";
  cube_cache_dir := "user memory";
  last_cycle_hit_count := 0;
  last_cycle_miss_count := 0;
  last_cycle_preload_time := 0%Q;
  total_count := 0;
  total_hit_count := 0;
  total_miss_count := 0;
  total_preload_time := 0%Q
|}.

(** ** [set_params] *)

Definition set_params (d : string) (s : state) : state := {|
  cube_root_dir := d;
  cube_cache_dir := cube_cache_dir s;
  last_cycle_hit_count := last_cycle_hit_count s;
  last_cycle_miss_count := last_cycle_miss_count s;
  last_cycle_preload_time := last_cycle_preload_time s;
  total_count := total_count s;
  total_hit_count := total_hit_count s;
  total_miss_count := total_miss_count s;
  total_preload_time := total_preload_time s
|}.

(** ** [add_count] *)

Definition add_count (is_cache : bool) (preload_time : Q) (s : state) : state :=
  if is_cache then {|
    cube_root_dir := cube_root_dir s;
    cube_cache_dir := cube_cache_dir s;
    last_cycle_hit_count := last_cycle_hit_count s + 1;
    last_cycle_miss_count := last_cycle_miss_count s;
    last_cycle_preload_time := (last_cycle_preload_time s + preload_time)%Q;
    total_count := total_count s;
    total_hit_count := total_hit_count s;
    total_miss_count := total_miss_count s;
    total_preload_time := total_preload_time s
  |}
  else {|
    cube_root_dir := cube_root_dir s;
    cube_cache_dir := cube_cache_dir s;
    last_cycle_hit_count := last_cycle_hit_count s;
    last_cycle_miss_count := last_cycle_miss_count s + 1;
    last_cycle_preload_time := last_cycle_preload_time s;
    total_count := total_count s;
    total_hit_count := total_hit_count s;
    total_miss_count := total_miss_count s;
    total_preload_time := total_preload_time s
  |}.

(** ** [print_hit_rate] *)

(** Python's true division: [ZeroDivisionError] (here [None]) on a zero
    divisor. *)
Definition pydiv (a b : Q) : option Q :=
  if Qeq_bool b 0 then None else Some (a / b)%Q.

Notation "x <- m ;; k" :=
  (match m with Some x => k | None => None end)
  (at level 61, m at next level, right associativity).

(** The arguments of the [.format(...)] call, in order: the printed line. *)
Record report := mkReport {
  rep_time : Z;
  rep_pid : Z;
  rep_cube_cache_dir : string;
  rep_last_request_count : Z;
  rep_last_hit_count : Z;
  rep_last_miss_count : Z;
  rep_last_hit_rate : Q;
  rep_last_miss_rate : Q;
  rep_last_avg_preload_time : Q;
  rep_total_count : Z;
  rep_total_hit_count : Z;
  rep_total_miss_count : Z;
  rep_total_hit_rate : Q;
  rep_total_miss_rate : Q;
  rep_total_avg_preload_time : Q
}.

(** [now] is [datetime.now()] and [pid] is [os.getpid()]; both come from
    the environment.  The result is the printed report and the state after
    the final reset, or [None] when a division raises. *)
Definition print_hit_rate (now pid : Z) (s : state) : option (report * state) :=
  let request_count0 := last_cycle_hit_count s + last_cycle_miss_count s in
  let request_count := if request_count0 =? 0 then 1 else request_count0 in
  let s1 := {|
    cube_root_dir := cube_root_dir s;
    cube_cache_dir := cube_cache_dir s;
    last_cycle_hit_count := last_cycle_hit_count s;
    last_cycle_miss_count := last_cycle_miss_count s;
    last_cycle_preload_time := last_cycle_preload_time s;
    total_count := total_count s + request_count;
    total_hit_count := total_hit_count s + last_cycle_hit_count s;
    total_miss_count := total_miss_count s + last_cycle_miss_count s;
    total_preload_time := (total_preload_time s + last_cycle_preload_time s)%Q
  |} in
  last_cycle_hit_rate <-
    pydiv (inject_Z (last_cycle_hit_count s1)) (inject_Z request_count) ;;
  last_cycle_miss_rate <-
    pydiv (inject_Z (last_cycle_miss_count s1)) (inject_Z request_count) ;;
  last_cycle_avg_preload_time <-
    pydiv (last_cycle_preload_time s1) (inject_Z request_count) ;;
  total_hit_rate <-
    pydiv (inject_Z (total_hit_count s1)) (inject_Z (total_count s1)) ;;
  total_miss_rate <-
    pydiv (inject_Z (total_miss_count s1)) (inject_Z (total_count s1)) ;;
  total_avg_preload_time <-
    pydiv (total_preload_time s1) (inject_Z (total_count s1)) ;;
  let print_mesg := {|
    rep_time := now;
    rep_pid := pid;
    rep_cube_cache_dir := cube_cache_dir s1;
    rep_last_request_count := request_count;
    rep_last_hit_count := last_cycle_hit_count s1;
    rep_last_miss_count := last_cycle_miss_count s1;
    rep_last_hit_rate := (last_cycle_hit_rate * 100)%Q;
    rep_last_miss_rate := (last_cycle_miss_rate * 100)%Q;
    rep_last_avg_preload_time := last_cycle_avg_preload_time;
    rep_total_count := total_count s1;
    rep_total_hit_count := total_hit_count s1;
    rep_total_miss_count := total_miss_count s1;
    rep_total_hit_rate := (total_hit_rate * 100)%Q;
    rep_total_miss_rate := (total_miss_rate * 100)%Q;
    rep_total_avg_preload_time := total_avg_preload_time
  |} in
  Some (print_mesg, {|
    cube_root_dir := cube_root_dir s1;
    cube_cache_dir := cube_cache_dir s1;
    last_cycle_hit_count := 0;
    last_cycle_miss_count := 0;
    last_cycle_preload_time := 0%Q;
    total_count := total_count s1;
    total_hit_count := total_hit_count s1;
    total_miss_count := total_miss_count s1;
    total_preload_time := total_preload_time s1
  |}).

(** [{:.2f}]: the value in hundredths, rounded to nearest.  Python rounds
    the binary float half-to-even; the two agree away from ties, and no
    value formatted below is a tie. *)
Definition fmt2 (q : Q) : Z := Qfloor (q * 100 + (1 # 2))%Q.

(** ** Executions *)

Inductive op :=
| SetParams (cube_root_dir : string)
| AddCount (is_cache : bool) (preload_time : Q)
| PrintHitRate (now pid : Z).

Definition step (o : op) (s : state) : option state :=
  match o with
  | SetParams d => Some (set_params d s)
  | AddCount c t => Some (add_count c t s)
  | PrintHitRate now pid => option_map snd (print_hit_rate now pid s)
  end.

Fixpoint run (tr : list op) (s : state) : option state :=
  match tr with
  | [] => Some s
  | o :: tr' => s' <- step o s ;; run tr' s'
  end.

(** Run some calls, then report. *)
Definition run_then_print (tr : list op) (now pid : Z) (s : state)
  : option (report * state) :=
  s' <- run tr s ;; print_hit_rate now pid s'.

Inductive reachable : state -> Prop :=
| reachable_init : reachable init_state
| reachable_step o s s' :
    reachable s -> step o s = Some s' -> reachable s'.

(** ** The two-cycle scenario of the specification *)

Definition scenario_cycle1 : list op :=
  [SetParams "cache-A"; AddCount true (1 # 2); AddCount true (3 # 2);
   AddCount false 0].

Definition scenario_cycle2 : list op := [AddCount true 1].

(** ** Executions made of whole reporting cycles

    A cycle is any sequence of [set_params]/[add_count] calls closed by one
    [print_hit_rate]. *)

Inductive call :=
| Call_set_params (cube_root_dir : string)
| Call_add_count (is_cache : bool) (preload_time : Q).

Definition call_op (c : call) : op :=
  match c with
  | Call_set_params d => SetParams d
  | Call_add_count b t => AddCount b t
  end.

Record cycle := mkCycle {
  cycle_calls : list call;
  cycle_now : Z;
  cycle_pid : Z
}.

Definition cycle_ops (c : cycle) : list op :=
  map call_op (cycle_calls c) ++ [PrintHitRate (cycle_now c) (cycle_pid c)].

Definition cycles_ops (cs : list cycle) : list op := flat_map cycle_ops cs.

(** Number of hits / misses recorded by a list of calls. *)
Fixpoint calls_hits (cl : list call) : Z :=
  match cl with
  | [] => 0
  | Call_add_count true _ :: cl' => 1 + calls_hits cl'
  | _ :: cl' => calls_hits cl'
  end.

Fixpoint calls_misses (cl : list call) : Z :=
  match cl with
  | [] => 0
  | Call_add_count false _ :: cl' => 1 + calls_misses cl'
  | _ :: cl' => calls_misses cl'
  end.

Definition cycle_hits (c : cycle) : Z := calls_hits (cycle_calls c).
Definition cycle_misses (c : cycle) : Z := calls_misses (cycle_calls c).

(** [Σ_{c in cs} f c] *)
Definition sum_cycles (f : cycle -> Z) (cs : list cycle) : Z :=
  fold_right (fun c acc => f c + acc) 0 cs.

(** Number of cycles in which [add_count] was never called. *)
Definition empty_cycles (cs : list cycle) : Z :=
  sum_cycles (fun c => if cycle_hits c + cycle_misses c =? 0 then 1 else 0) cs.

(** The effect of the calls of a cycle, as one function. *)
Fixpoint apply_calls (cl : list call) (s : state) : state :=
  match cl with
  | [] => s
  | Call_set_params d :: cl' => apply_calls cl' (set_params d s)
  | Call_add_count b t :: cl' => apply_calls cl' (add_count b t s)
  end.

(** Every [preload_time] passed to [add_count] is non-negative. *)
Definition preloads_nonneg (tr : list op) : Prop :=
  Forall (fun o => match o with AddCount _ t => (0 <= t)%Q | _ => True end) tr.

Definition is_print (o : op) : bool :=
  match o with PrintHitRate _ _ => true | _ => false end.

(** [request_count] of [print_hit_rate] after the substitution of 0 by 1,
    and the state [print_hit_rate] leaves when no division raises. *)
Definition req_count (s : state) : Z :=
  let request_count0 := last_cycle_hit_count s + last_cycle_miss_count s in
  if request_count0 =? 0 then 1 else request_count0.

Definition flushed (s : state) : state := {|
  cube_root_dir := cube_root_dir s;
  cube_cache_dir := cube_cache_dir s;
  last_cycle_hit_count := 0;
  last_cycle_miss_count := 0;
  last_cycle_preload_time := 0%Q;
  total_count := total_count s + req_count s;
  total_hit_count := total_hit_count s + last_cycle_hit_count s;
  total_miss_count := total_miss_count s + last_cycle_miss_count s;
  total_preload_time := (total_preload_time s + last_cycle_preload_time s)%Q
|}.

(** Counters that only ever grow from 0 by the operations above. *)
Definition wf (s : state) : Prop :=
  0 <= last_cycle_hit_count s /\ 0 <= last_cycle_miss_count s /\
  0 <= total_count s /\ 0 <= total_hit_count s /\ 0 <= total_miss_count s.

(** Invariant of the reachable states: non-negative counters, lifetime
    counts covered by [total_count], no cycle preload time without a cycle
    hit, and the never-assigned [cube_cache_dir]. *)
Definition inv (s : state) : Prop :=
  wf s /\
  total_hit_count s + total_miss_count s <= total_count s /\
  (last_cycle_hit_count s = 0 -> last_cycle_preload_time s = 0%Q) /\
  cube_cache_dir s = "user memory"%string.

(** Sum of the [preload_time] of the hit calls of a list of calls. *)
Fixpoint calls_preload (cl : list call) : Q :=
  match cl with
  | [] => 0%Q
  | Call_add_count true t :: cl' => (t + calls_preload cl')%Q
  | _ :: cl' => calls_preload cl'
  end.

Definition cycles_preload (cs : list cycle) : Q :=
  fold_right (fun c acc => (calls_preload (cycle_calls c) + acc)%Q) 0%Q cs.


(** ** [__new__]: the singleton

    An object is named by its identity [nat]; [_instance] is [None] until
    the first object is made.  [super().__new__(cls, *args, **kwargs)] is
    [object.__new__], which raises [TypeError] when it gets arguments
    besides the class and the class overrides [__new__] (CPython's
    [object_new]); a raising call leaves [_instance] unset.  [nargs] counts
    the positional and keyword arguments, [fresh] is the identity the
    allocation would get.  Objects are truthy (no [__bool__]/[__len__]). *)
Definition new_instance (nargs fresh : nat) (instance : option nat)
  : option nat * option nat :=
  match instance with
  | Some o => (Some o, Some o)
  | None => if Nat.eqb nargs 0 then (Some fresh, Some fresh) else (None, None)
  end.

(** A sequence of [CubeFileOpenInterceptor(...)] calls, each given by its
    number of arguments and fresh identity: the result of each call
    ([None] for [TypeError]) and the final [_instance]. *)
Fixpoint new_calls (calls : list (nat * nat)) (instance : option nat)
  : list (option nat) * option nat :=
  match calls with
  | [] => ([], instance)
  | (nargs, fresh) :: calls' =>
      let '(res, instance1) := new_instance nargs fresh instance in
      let '(ress, instance2) := new_calls calls' instance1 in
      (res :: ress, instance2)
  end.

(** ** General lemmas *)

Lemma Qeq_bool_inject_Z_nonzero (z : Z) :
  z <> 0 -> Qeq_bool (inject_Z z) 0 = false.
Proof.
  intros Hz. destruct (Qeq_bool (inject_Z z) 0) eqn:E; [|reflexivity].
  apply Qeq_bool_iff in E. exfalso. apply Hz.
  apply (proj1 (inject_Z_injective z 0)). exact E.
Qed.

Lemma req_count_nonzero (s : state) : req_count s <> 0.
Proof. unfold req_count. destruct (Z.eqb_spec (last_cycle_hit_count s + last_cycle_miss_count s) 0); lia. Qed.

Lemma print_hit_rate_spec now pid s r s' :
  print_hit_rate now pid s = Some (r, s') ->
  s' = flushed s /\ rep_cube_cache_dir r = cube_cache_dir s /\
  rep_last_request_count r = req_count s /\
  rep_total_count r = total_count s + req_count s.
Proof.
  unfold print_hit_rate, pydiv. cbn.
  repeat match goal with |- context [Qeq_bool ?a ?b] => destruct (Qeq_bool a b) end;
    try discriminate.
  intros H. injection H as <- <-. repeat split.
Qed.

Lemma print_hit_rate_defined now pid s :
  total_count s + req_count s <> 0 ->
  exists r, print_hit_rate now pid s = Some (r, flushed s).
Proof.
  intros Ht. pose proof (req_count_nonzero s) as Hr.
  unfold print_hit_rate, pydiv. cbn. unfold req_count in *. cbn in *.
  rewrite !Qeq_bool_inject_Z_nonzero by assumption.
  eexists. reflexivity.
Qed.

Lemma run_app tr1 tr2 s :
  run (tr1 ++ tr2) s = (s' <- run tr1 s ;; run tr2 s').
Proof.
  revert s. induction tr1 as [|o tr1 IH]; intros s; cbn; [reflexivity|].
  destruct (step o s); [apply IH | reflexivity].
Qed.

Lemma run_calls cl s : run (map call_op cl) s = Some (apply_calls cl s).
Proof.
  revert s. induction cl as [|[d|b t] cl IH]; intros s; cbn; auto.
Qed.

Lemma calls_hits_nonneg cl : 0 <= calls_hits cl.
Proof. induction cl as [|[d|[|] t] cl IH]; cbn [calls_hits calls_misses]; lia. Qed.

Lemma calls_misses_nonneg cl : 0 <= calls_misses cl.
Proof. induction cl as [|[d|[|] t] cl IH]; cbn [calls_hits calls_misses]; lia. Qed.

Lemma apply_calls_counters cl s :
  last_cycle_hit_count (apply_calls cl s) = last_cycle_hit_count s + calls_hits cl /\
  last_cycle_miss_count (apply_calls cl s) = last_cycle_miss_count s + calls_misses cl /\
  total_count (apply_calls cl s) = total_count s /\
  total_hit_count (apply_calls cl s) = total_hit_count s /\
  total_miss_count (apply_calls cl s) = total_miss_count s.
Proof.
  revert s. induction cl as [|[d|[|] t] cl IH]; intros s; cbn [apply_calls calls_hits calls_misses].
  - lia.
  - destruct (IH (set_params d s)) as (H1 & H2 & H3 & H4 & H5); rewrite H1, H2, H3, H4, H5; cbn [last_cycle_hit_count last_cycle_miss_count total_count total_hit_count total_miss_count set_params add_count]; lia.
  - destruct (IH (add_count true t s)) as (H1 & H2 & H3 & H4 & H5); rewrite H1, H2, H3, H4, H5; cbn [last_cycle_hit_count last_cycle_miss_count total_count total_hit_count total_miss_count set_params add_count]; lia.
  - destruct (IH (add_count false t s)) as (H1 & H2 & H3 & H4 & H5); rewrite H1, H2, H3, H4, H5; cbn [last_cycle_hit_count last_cycle_miss_count total_count total_hit_count total_miss_count set_params add_count]; lia.
Qed.

(** [req_count] of a cycle started from zeroed cycle counters. *)
Lemma req_count_apply_calls cl s :
  last_cycle_hit_count s = 0 -> last_cycle_miss_count s = 0 ->
  req_count (apply_calls cl s) = Z.max (calls_hits cl + calls_misses cl) 1.
Proof.
  intros Hh Hm. unfold req_count.
  destruct (apply_calls_counters cl s) as (H1 & H2 & _).
  rewrite H1, H2, Hh, Hm. cbn.
  pose proof (calls_hits_nonneg cl). pose proof (calls_misses_nonneg cl).
  destruct (Z.eqb_spec (calls_hits cl + calls_misses cl) 0); lia.
Qed.

(** One cycle after another, from zeroed cycle counters. *)
Lemma run_cycles_totals cs s :
  0 <= total_count s ->
  last_cycle_hit_count s = 0 -> last_cycle_miss_count s = 0 ->
  exists s', run (cycles_ops cs) s = Some s' /\
    last_cycle_hit_count s' = 0 /\ last_cycle_miss_count s' = 0 /\
    total_count s' =
      total_count s + sum_cycles (fun c => Z.max (cycle_hits c + cycle_misses c) 1) cs /\
    total_hit_count s' = total_hit_count s + sum_cycles cycle_hits cs /\
    total_miss_count s' = total_miss_count s + sum_cycles cycle_misses cs.
Proof.
  revert s. induction cs as [|c cs IH]; intros s Ht Hh Hm.
  - exists s. cbn. repeat split; lia.
  - cbn [cycles_ops flat_map]. unfold cycle_ops. rewrite <- app_assoc.
    rewrite run_app, run_calls. cbn [app run step].
    set (s1 := apply_calls (cycle_calls c) s).
    destruct (apply_calls_counters (cycle_calls c) s) as (H1 & H2 & H3 & H4 & H5).
    fold s1 in H1, H2, H3, H4, H5.
    pose proof (req_count_apply_calls (cycle_calls c) s Hh Hm) as Hr.
    fold s1 in Hr.
    destruct (print_hit_rate_defined (cycle_now c) (cycle_pid c) s1) as [r Hp];
      [lia|].
    rewrite Hp. cbn [option_map snd].
    destruct (IH (flushed s1)) as (s' & Hrun & Hh' & Hm' & Ht' & Hth & Htm);
      cbn [flushed total_count last_cycle_hit_count last_cycle_miss_count]; try lia.
    exists s'. split; [exact Hrun|].
    unfold cycle_hits, cycle_misses, sum_cycles in *.
    cbn [fold_right flushed total_count total_hit_count total_miss_count] in *.
    repeat split; lia.
Qed.

Lemma wf_init : wf init_state.
Proof. unfold wf; cbn; lia. Qed.

Lemma wf_req_count_pos s : wf s -> 0 < req_count s.
Proof.
  unfold wf, req_count. intros (Hh & Hm & _).
  destruct (Z.eqb_spec (last_cycle_hit_count s + last_cycle_miss_count s) 0); lia.
Qed.

Lemma wf_step o s s' : wf s -> step o s = Some s' -> wf s'.
Proof.
  intros Hw Hs. destruct o as [d|[|] t|now pid]; cbn in Hs.
  - injection Hs as <-. exact Hw.
  - injection Hs as <-. unfold wf in *; cbn; lia.
  - injection Hs as <-. unfold wf in *; cbn; lia.
  - destruct (print_hit_rate now pid s) as [[r s1]|] eqn:E; [|discriminate].
    injection Hs as <-. apply print_hit_rate_spec in E as (-> & _).
    pose proof (wf_req_count_pos s Hw). unfold wf in *; cbn; lia.
Qed.

Lemma reachable_wf s : reachable s -> wf s.
Proof.
  induction 1 as [|o s s' _ IH Hs]; [exact wf_init | exact (wf_step o s s' IH Hs)].
Qed.

Lemma sum_max_split cs :
  sum_cycles (fun c => Z.max (cycle_hits c + cycle_misses c) 1) cs =
  sum_cycles cycle_hits cs + sum_cycles cycle_misses cs + empty_cycles cs.
Proof.
  unfold empty_cycles, sum_cycles.
  induction cs as [|c cs IH]; cbn [fold_right]; [reflexivity|].
  rewrite IH.
  pose proof (calls_hits_nonneg (cycle_calls c)).
  pose proof (calls_misses_nonneg (cycle_calls c)).
  unfold cycle_hits, cycle_misses in *.
  destruct (Z.eqb_spec (calls_hits (cycle_calls c) + calls_misses (cycle_calls c)) 0); lia.
Qed.

Lemma empty_cycles_nonneg cs : 0 <= empty_cycles cs.
Proof.
  unfold empty_cycles, sum_cycles.
  induction cs as [|c cs IH]; cbn [fold_right]; [lia|].
  destruct (_ =? 0); lia.
Qed.

Lemma empty_cycles_zero cs :
  empty_cycles cs = 0 <-> Forall (fun c => cycle_hits c + cycle_misses c <> 0) cs.
Proof.
  induction cs as [|c cs IH]; split; intros H.
  - constructor.
  - reflexivity.
  - pose proof (empty_cycles_nonneg cs).
    unfold empty_cycles, sum_cycles in *. cbn [fold_right] in H.
    destruct (Z.eqb_spec (cycle_hits c + cycle_misses c) 0) as [E|E]; [lia|].
    constructor; [exact E|]. apply IH. lia.
  - inversion H as [|? ? Hc Hcs]; subst.
    unfold empty_cycles, sum_cycles in *. cbn [fold_right].
    rewrite (proj2 (Z.eqb_neq _ _) Hc), (proj2 IH Hcs). reflexivity.
Qed.

Lemma length_le_sum_max cs :
  Z.of_nat (length cs) <=
  sum_cycles (fun c => Z.max (cycle_hits c + cycle_misses c) 1) cs.
Proof.
  unfold sum_cycles. induction cs as [|c cs IH]; cbn [fold_right length]; lia.
Qed.

Lemma set_params_run ds d s :
  run (map SetParams (ds ++ [d])) s = Some (set_params d s).
Proof.
  revert s. induction ds as [|d' ds IH]; intros s; [reflexivity|].
  cbn [app map run step]. rewrite IH. reflexivity.
Qed.

Lemma step_counts_mono o s s' :
  wf s -> step o s = Some s' ->
  total_count s <= total_count s' /\ total_hit_count s <= total_hit_count s' /\
  total_miss_count s <= total_miss_count s'.
Proof.
  intros Hw Hs. destruct o as [d|[|] t|now pid]; cbn in Hs.
  - injection Hs as <-. cbn; lia.
  - injection Hs as <-. cbn; lia.
  - injection Hs as <-. cbn; lia.
  - destruct (print_hit_rate now pid s) as [[r s1]|] eqn:E; [|discriminate].
    injection Hs as <-. apply print_hit_rate_spec in E as (-> & _).
    pose proof (wf_req_count_pos s Hw). unfold wf in *; cbn; lia.
Qed.

Definition preload_ok (s : state) : Prop := (0 <= last_cycle_preload_time s)%Q.

Lemma step_preload_mono o s s' :
  preload_ok s ->
  match o with AddCount _ t => (0 <= t)%Q | _ => True end ->
  step o s = Some s' ->
  preload_ok s' /\ (total_preload_time s <= total_preload_time s')%Q.
Proof.
  unfold preload_ok. intros Hp Ho Hs. destruct o as [d|[|] t|now pid]; cbn in Hs.
  - injection Hs as <-. cbn. split; [exact Hp | apply Qle_refl].
  - injection Hs as <-. cbn. split; [lra | apply Qle_refl].
  - injection Hs as <-. cbn. split; [exact Hp | apply Qle_refl].
  - destruct (print_hit_rate now pid s) as [[r s1]|] eqn:E; [|discriminate].
    injection Hs as <-. apply print_hit_rate_spec in E as (-> & _).
    cbn. split; lra.
Qed.

Lemma step_no_print o s s' :
  is_print o = false -> step o s = Some s' ->
  total_count s' = total_count s /\ total_hit_count s' = total_hit_count s /\
  total_miss_count s' = total_miss_count s /\
  total_preload_time s' = total_preload_time s.
Proof.
  intros Ho Hs. destruct o as [d|[|] t|now pid]; cbn in Ho, Hs; try discriminate;
    injection Hs as <-; repeat split.
Qed.

Lemma run_wf tr s s' : wf s -> run tr s = Some s' -> wf s'.
Proof.
  revert s. induction tr as [|o tr IH]; intros s Hw Hr; cbn in Hr.
  - injection Hr as <-. exact Hw.
  - destruct (step o s) as [s1|] eqn:E; [|discriminate].
    exact (IH s1 (wf_step o s s1 Hw E) Hr).
Qed.

Lemma run_counts_mono tr s s' :
  wf s -> run tr s = Some s' ->
  total_count s <= total_count s' /\ total_hit_count s <= total_hit_count s' /\
  total_miss_count s <= total_miss_count s'.
Proof.
  revert s. induction tr as [|o tr IH]; intros s Hw Hr; cbn in Hr.
  - injection Hr as <-. lia.
  - destruct (step o s) as [s1|] eqn:E; [|discriminate].
    pose proof (step_counts_mono o s s1 Hw E).
    pose proof (IH s1 (wf_step o s s1 Hw E) Hr). lia.
Qed.

Lemma run_preload_mono tr s s' :
  preload_ok s -> preloads_nonneg tr -> run tr s = Some s' ->
  preload_ok s' /\ (total_preload_time s <= total_preload_time s')%Q.
Proof.
  revert s. induction tr as [|o tr IH]; intros s Hp Hn Hr; cbn in Hr.
  - injection Hr as <-. split; [exact Hp | apply Qle_refl].
  - inversion Hn as [|? ? Ho Hn']; subst.
    destruct (step o s) as [s1|] eqn:E; [|discriminate].
    destruct (step_preload_mono o s s1 Hp Ho E) as [Hp1 Hle1].
    destruct (IH s1 Hp1 Hn' Hr) as [Hp' Hle'].
    split; [exact Hp' | eapply Qle_trans; eassumption].
Qed.

Lemma run_no_print tr s s' :
  forallb (fun o => negb (is_print o)) tr = true -> run tr s = Some s' ->
  total_count s' = total_count s /\ total_hit_count s' = total_hit_count s /\
  total_miss_count s' = total_miss_count s /\
  total_preload_time s' = total_preload_time s.
Proof.
  revert s. induction tr as [|o tr IH]; intros s Hf Hr; cbn in Hf, Hr.
  - injection Hr as <-. repeat split.
  - apply andb_prop in Hf as [Ho Hf]. apply Bool.negb_true_iff in Ho.
    destruct (step o s) as [s1|] eqn:E; [|discriminate].
    destruct (step_no_print o s s1 Ho E) as (A & B & C & D).
    destruct (IH s1 Hf Hr) as (A' & B' & C' & D').
    rewrite A', B', C', D'. repeat split; assumption.
Qed.

(** ** Properties of the telemetry counters *)

(** C1 (counterexample): one [print_hit_rate] from the initial state,
    without any [add_count] before it, leaves [total_count = 1] while
    [total_hit_count + total_miss_count = 0]. *)
Lemma total_count_neq_hits_misses_empty_cycle :
  match print_hit_rate 0 0 init_state with
  | Some (_, s) => total_count s <> total_hit_count s + total_miss_count s
  | None => False
  end.
Proof. vm_compute. intros H. discriminate H. Qed.

(** C1 (amended): after every whole number of reporting cycles from the
    initial state, [total_count] equals [total_hit_count + total_miss_count]
    plus the number of flushed cycles that had no [add_count] call; the
    equality [total_count = total_hit_count + total_miss_count] holds
    exactly when no flushed cycle was empty. *)
Theorem total_count_hits_misses_empty_cycles (cs : list cycle) :
  exists s, run (cycles_ops cs) init_state = Some s /\
    total_count s = total_hit_count s + total_miss_count s + empty_cycles cs.
Proof.
  destruct (run_cycles_totals cs init_state) as (s & Hr & _ & _ & Ht & Hh & Hm);
    cbn; try lia.
  exists s. split; [exact Hr|].
  rewrite Ht, Hh, Hm, sum_max_split. cbn. lia.
Qed.

(** C2 (counterexample): in the first cycle of the scenario the average
    preload time is [2.0 / 3], not [1.0]: it is printed as [0.67]. *)
Lemma scenario_avg_preload_not_one :
  match run_then_print scenario_cycle1 0 0 init_state with
  | Some (r, _) =>
      ~ (rep_last_avg_preload_time r == 1)%Q /\
      fmt2 (rep_last_avg_preload_time r) <> 100
  | None => False
  end.
Proof. vm_compute. split; intros H; discriminate H. Qed.

(** C2 (amended): the two-cycle scenario.  First cycle: request 3, hits 2,
    misses 1, hit rate 66.67%, miss rate 33.33%, average preload
    [2.0 / 3] (printed 0.67 s); the lifetime values equal the cycle values.
    Second cycle ([add_count(True, 1.0)] only): hits 1, misses 0, hit rate
    100%; lifetime hits 3, misses 1, requests 4. *)
Theorem scenario_two_cycles (now1 pid1 now2 pid2 : Z) :
  match run_then_print scenario_cycle1 now1 pid1 init_state with
  | Some (r1, s2) =>
      rep_last_request_count r1 = 3 /\ rep_last_hit_count r1 = 2 /\
      rep_last_miss_count r1 = 1 /\
      fmt2 (rep_last_hit_rate r1) = 6667 /\ fmt2 (rep_last_miss_rate r1) = 3333 /\
      (rep_last_avg_preload_time r1 == 2 # 3)%Q /\
      fmt2 (rep_last_avg_preload_time r1) = 67 /\
      rep_total_count r1 = rep_last_request_count r1 /\
      rep_total_hit_count r1 = rep_last_hit_count r1 /\
      rep_total_miss_count r1 = rep_last_miss_count r1 /\
      (rep_total_hit_rate r1 == rep_last_hit_rate r1)%Q /\
      (rep_total_miss_rate r1 == rep_last_miss_rate r1)%Q /\
      (rep_total_avg_preload_time r1 == rep_last_avg_preload_time r1)%Q /\
      match run_then_print scenario_cycle2 now2 pid2 s2 with
      | Some (r2, _) =>
          rep_last_hit_count r2 = 1 /\ rep_last_miss_count r2 = 0 /\
          (rep_last_hit_rate r2 == 100)%Q /\
          rep_total_hit_count r2 = 3 /\ rep_total_miss_count r2 = 1 /\
          rep_total_count r2 = 4
      | None => False
      end
  | None => False
  end.
Proof. vm_compute. repeat split; reflexivity. Qed.

(** C3 (counterexample): two [print_hit_rate] calls in a row from the
    initial state: the second one raises [total_count] from 1 to 2. *)
Lemma second_print_changes_total_count :
  match print_hit_rate 0 0 init_state with
  | Some (_, s1) =>
      match print_hit_rate 0 0 s1 with
      | Some (_, s2) => total_count s2 <> total_count s1
      | None => False
      end
  | None => False
  end.
Proof. vm_compute. intros H. discriminate H. Qed.

(** C3 (amended): when [print_hit_rate] runs twice with no [add_count] in
    between, the second call leaves [total_hit_count], [total_miss_count]
    and [total_preload_time] unchanged and adds exactly 1 to
    [total_count] (the substituted request count of the empty cycle). *)
Theorem second_print_adds_one (s s1 s2 : state) (now1 pid1 now2 pid2 : Z)
    (r1 r2 : report) :
  print_hit_rate now1 pid1 s = Some (r1, s1) ->
  print_hit_rate now2 pid2 s1 = Some (r2, s2) ->
  total_count s2 = total_count s1 + 1 /\
  total_hit_count s2 = total_hit_count s1 /\
  total_miss_count s2 = total_miss_count s1 /\
  (total_preload_time s2 == total_preload_time s1)%Q.
Proof.
  intros H1 H2.
  apply print_hit_rate_spec in H1 as (-> & _).
  apply print_hit_rate_spec in H2 as (-> & _).
  cbn. refine (conj _ (conj _ (conj _ _))); [lia | lia | lia | apply Qplus_0_r].
Qed.

Lemma second_print_adds_one_witness :
  exists r1 s1 r2 s2,
    print_hit_rate 0 0 init_state = Some (r1, s1) /\
    print_hit_rate 0 0 s1 = Some (r2, s2) /\
    total_count s2 = total_count s1 + 1 /\
    total_hit_count s2 = total_hit_count s1 /\
    total_miss_count s2 = total_miss_count s1 /\
    (total_preload_time s2 == total_preload_time s1)%Q.
Proof.
  do 4 eexists. split; [reflexivity|]. split; [reflexivity|].
  eapply (second_print_adds_one init_state _ _ 0 0 0 0); reflexivity.
Defined.

(** C4 (counterexample): after [set_params("cache-A")] the report's cache
    field still shows ["user memory"]: [set_params] writes [cube_root_dir]
    while the report prints [cube_cache_dir]. *)
Lemma set_params_label_not_reported :
  match run_then_print [SetParams "cache-A"] 0 0 init_state with
  | Some (r, _) => rep_cube_cache_dir r <> "cache-A"%string
  | None => False
  end.
Proof. vm_compute. intros H. discriminate H. Qed.

(** C4 (amended): for every non-empty sequence of [set_params] calls with
    any strings, the last call wins on [cube_root_dir] and nothing else
    changes (neither [cube_cache_dir] nor any counter); the cache field of
    the next report is [cube_cache_dir], which [set_params] never changes. *)
Theorem set_params_last_wins (ds : list string) (d : string) (s : state)
    (now pid : Z) :
  run (map SetParams (ds ++ [d])) s = Some {|
    cube_root_dir := d;
    cube_cache_dir := cube_cache_dir s;
    last_cycle_hit_count := last_cycle_hit_count s;
    last_cycle_miss_count := last_cycle_miss_count s;
    last_cycle_preload_time := last_cycle_preload_time s;
    total_count := total_count s;
    total_hit_count := total_hit_count s;
    total_miss_count := total_miss_count s;
    total_preload_time := total_preload_time s
  |} /\
  match run_then_print (map SetParams (ds ++ [d])) now pid s with
  | Some (r, _) => rep_cube_cache_dir r = cube_cache_dir s
  | None => True
  end.
Proof.
  unfold run_then_print. rewrite set_params_run. split; [reflexivity|].
  destruct (print_hit_rate now pid (set_params d s)) as [[r s']|] eqn:E; [|exact I].
  apply print_hit_rate_spec in E as (_ & -> & _). reflexivity.
Qed.

(** C5 (counterexample): [add_count(True, -1)] then [print_hit_rate]
    lowers [total_preload_time] from 0 to -1. *)
Lemma negative_preload_lowers_total :
  exists s,
    run [AddCount true (-1); PrintHitRate 0 0] init_state = Some s /\
    (total_preload_time s < total_preload_time init_state)%Q.
Proof.
  eexists. split; [reflexivity|]. vm_compute. reflexivity.
Qed.

(** C5 (amended): over any execution from the initial state, the lifetime
    counters [total_count], [total_hit_count] and [total_miss_count] never
    decrease; [total_preload_time] never decreases when every
    [preload_time] passed to [add_count] is non-negative; and none of the
    four lifetime accumulators changes in a stretch of calls without
    [print_hit_rate]. *)
Theorem total_accumulators_monotone (tr1 tr2 : list op) (s1 s2 : state) :
  run tr1 init_state = Some s1 -> run tr2 s1 = Some s2 ->
  total_count s1 <= total_count s2 /\
  total_hit_count s1 <= total_hit_count s2 /\
  total_miss_count s1 <= total_miss_count s2 /\
  (preloads_nonneg (tr1 ++ tr2) ->
     (total_preload_time s1 <= total_preload_time s2)%Q) /\
  (forallb (fun o => negb (is_print o)) tr2 = true ->
     total_count s2 = total_count s1 /\ total_hit_count s2 = total_hit_count s1 /\
     total_miss_count s2 = total_miss_count s1 /\
     total_preload_time s2 = total_preload_time s1).
Proof.
  intros H1 H2.
  pose proof (run_wf tr1 init_state s1 wf_init H1) as Hw1.
  destruct (run_counts_mono tr2 s1 s2 Hw1 H2) as (A & B & C).
  refine (conj A (conj B (conj C (conj _ _)))).
  - intros Hn. apply Forall_app in Hn as [Hn1 Hn2].
    assert (Hp0 : preload_ok init_state) by (unfold preload_ok; cbn; lra).
    destruct (run_preload_mono tr1 init_state s1 Hp0 Hn1 H1) as [Hp1 _].
    exact (proj2 (run_preload_mono tr2 s1 s2 Hp1 Hn2 H2)).
  - intros Hf. exact (run_no_print tr2 s1 s2 Hf H2).
Qed.

Lemma total_accumulators_monotone_witness :
  exists s1 s2,
    run scenario_cycle1 init_state = Some s1 /\
    run [PrintHitRate 0 0] s1 = Some s2 /\
    total_count s1 <= total_count s2 /\
    total_hit_count s1 <= total_hit_count s2 /\
    total_miss_count s1 <= total_miss_count s2 /\
    (preloads_nonneg (scenario_cycle1 ++ [PrintHitRate 0 0]) ->
       (total_preload_time s1 <= total_preload_time s2)%Q) /\
    (forallb (fun o => negb (is_print o)) [PrintHitRate 0 0] = true ->
       total_count s2 = total_count s1 /\ total_hit_count s2 = total_hit_count s1 /\
       total_miss_count s2 = total_miss_count s1 /\
       total_preload_time s2 = total_preload_time s1).
Proof.
  do 2 eexists. split; [reflexivity|]. split; [reflexivity|].
  eapply (total_accumulators_monotone scenario_cycle1 [PrintHitRate 0 0]);
    reflexivity.
Defined.

(** C6: [add_count(True, t)] adds 1 to [_last_cycle_hit_count] and [t] to
    [_last_cycle_preload_time]; [add_count(False, t)] adds 1 to
    [_last_cycle_miss_count] and ignores [t]; nothing else changes and the
    call always succeeds. *)
Theorem add_count_spec (s : state) (t : Q) :
  step (AddCount true t) s = Some {|
    cube_root_dir := cube_root_dir s;
    cube_cache_dir := cube_cache_dir s;
    last_cycle_hit_count := last_cycle_hit_count s + 1;
    last_cycle_miss_count := last_cycle_miss_count s;
    last_cycle_preload_time := (last_cycle_preload_time s + t)%Q;
    total_count := total_count s;
    total_hit_count := total_hit_count s;
    total_miss_count := total_miss_count s;
    total_preload_time := total_preload_time s
  |} /\
  step (AddCount false t) s = Some {|
    cube_root_dir := cube_root_dir s;
    cube_cache_dir := cube_cache_dir s;
    last_cycle_hit_count := last_cycle_hit_count s;
    last_cycle_miss_count := last_cycle_miss_count s + 1;
    last_cycle_preload_time := last_cycle_preload_time s;
    total_count := total_count s;
    total_hit_count := total_hit_count s;
    total_miss_count := total_miss_count s;
    total_preload_time := total_preload_time s
  |}.
Proof. split; reflexivity. Qed.

(** C7: whatever calls precede it, right after [print_hit_rate] returns the
    three cycle counters [_last_cycle_hit_count], [_last_cycle_miss_count]
    and [_last_cycle_preload_time] are all 0. *)
Theorem print_resets_cycle (tr : list op) (s s' : state) (now pid : Z) :
  run (tr ++ [PrintHitRate now pid]) s = Some s' ->
  last_cycle_hit_count s' = 0 /\ last_cycle_miss_count s' = 0 /\
  last_cycle_preload_time s' = 0%Q.
Proof.
  rewrite run_app. destruct (run tr s) as [s1|]; [|discriminate].
  cbn. destruct (print_hit_rate now pid s1) as [[r s2]|] eqn:E; [|discriminate].
  cbn. intros H. injection H as <-.
  apply print_hit_rate_spec in E as (-> & _). repeat split.
Qed.

Lemma print_resets_cycle_witness :
  exists s',
    run (scenario_cycle1 ++ [PrintHitRate 0 0]) init_state = Some s' /\
    last_cycle_hit_count s' = 0 /\ last_cycle_miss_count s' = 0 /\
    last_cycle_preload_time s' = 0%Q.
Proof.
  eexists. split; [reflexivity|].
  apply (print_resets_cycle scenario_cycle1 init_state _ 0 0). reflexivity.
Defined.

(** C8: in every reachable state [print_hit_rate] raises no
    [ZeroDivisionError] and prints its line; with an empty cycle the printed
    cycle [request_count] is the substituted 1 (otherwise hits + misses),
    and the lifetime divisor [total_count] (printed as [rep_total_count]) is
    positive when it divides. *)
Theorem print_hit_rate_total (s : state) (now pid : Z) :
  reachable s ->
  exists r s', print_hit_rate now pid s = Some (r, s') /\
    (last_cycle_hit_count s + last_cycle_miss_count s = 0 ->
       rep_last_request_count r = 1) /\
    (last_cycle_hit_count s + last_cycle_miss_count s <> 0 ->
       rep_last_request_count r = last_cycle_hit_count s + last_cycle_miss_count s) /\
    0 < rep_total_count r.
Proof.
  intros Hreach. pose proof (reachable_wf s Hreach) as Hw.
  pose proof (wf_req_count_pos s Hw) as Hpos.
  destruct (print_hit_rate_defined now pid s) as [r E]; [unfold wf in Hw; lia|].
  exists r, (flushed s). split; [exact E|].
  apply print_hit_rate_spec in E as (_ & _ & Hreq & Htot).
  rewrite Hreq, Htot. unfold req_count in *.
  destruct (Z.eqb_spec (last_cycle_hit_count s + last_cycle_miss_count s) 0);
    unfold wf in Hw; repeat split; intros; lia.
Qed.

Lemma print_hit_rate_total_witness :
  reachable init_state /\
  exists r s', print_hit_rate 0 0 init_state = Some (r, s') /\
    (last_cycle_hit_count init_state + last_cycle_miss_count init_state = 0 ->
       rep_last_request_count r = 1) /\
    (last_cycle_hit_count init_state + last_cycle_miss_count init_state <> 0 ->
       rep_last_request_count r =
       last_cycle_hit_count init_state + last_cycle_miss_count init_state) /\
    0 < rep_total_count r.
Proof.
  split; [exact reachable_init|].
  apply (print_hit_rate_total init_state 0 0). exact reachable_init.
Defined.

(** C9: after k whole reporting cycles from the initial state,
    [total_hit_count] and [total_miss_count] are the sums over the cycles of
    the hits and misses recorded in each. *)
Theorem total_hits_misses_sum (cs : list cycle) :
  exists s, run (cycles_ops cs) init_state = Some s /\
    total_hit_count s = sum_cycles cycle_hits cs /\
    total_miss_count s = sum_cycles cycle_misses cs.
Proof.
  destruct (run_cycles_totals cs init_state) as (s & Hr & _ & _ & _ & Hh & Hm);
    cbn; try lia.
  exists s. cbn in Hh, Hm. repeat split; [exact Hr | exact Hh | exact Hm].
Qed.

(** C10: after k whole reporting cycles from the initial state,
    [total_count] is the sum over the cycles of [max(hits + misses, 1)];
    hence it is at least k and at least [total_hit_count + total_miss_count],
    with equality to the latter exactly when no flushed cycle was empty. *)
Theorem total_count_sum_max (cs : list cycle) :
  exists s, run (cycles_ops cs) init_state = Some s /\
    total_count s = sum_cycles (fun c => Z.max (cycle_hits c + cycle_misses c) 1) cs /\
    Z.of_nat (length cs) <= total_count s /\
    total_hit_count s + total_miss_count s <= total_count s /\
    (total_count s = total_hit_count s + total_miss_count s <->
     Forall (fun c => cycle_hits c + cycle_misses c <> 0) cs).
Proof.
  destruct (run_cycles_totals cs init_state) as (s & Hr & _ & _ & Ht & Hh & Hm);
    cbn; try lia.
  cbn in Ht, Hh, Hm.
  pose proof (sum_max_split cs) as Hsplit.
  pose proof (length_le_sum_max cs) as Hlen.
  pose proof (empty_cycles_nonneg cs) as Hne.
  pose proof (empty_cycles_zero cs) as Hz.
  exists s. split; [exact Hr|].
  refine (conj _ (conj _ (conj _ _))); [lia | lia | lia |].
  rewrite <- Hz. lia.
Qed.

(** ** More of the code: rates, composition, the singleton *)

Lemma print_hit_rate_fields now pid s r s' :
  print_hit_rate now pid s = Some (r, s') ->
  rep_last_hit_count r = last_cycle_hit_count s /\
  rep_last_miss_count r = last_cycle_miss_count s /\
  rep_last_hit_rate r =
    (inject_Z (last_cycle_hit_count s) / inject_Z (req_count s) * 100)%Q /\
  rep_last_miss_rate r =
    (inject_Z (last_cycle_miss_count s) / inject_Z (req_count s) * 100)%Q /\
  rep_last_avg_preload_time r =
    (last_cycle_preload_time s / inject_Z (req_count s))%Q /\
  rep_total_hit_count r = total_hit_count s' /\
  rep_total_miss_count r = total_miss_count s' /\
  rep_total_hit_rate r =
    (inject_Z (total_hit_count s') / inject_Z (total_count s') * 100)%Q /\
  rep_total_miss_rate r =
    (inject_Z (total_miss_count s') / inject_Z (total_count s') * 100)%Q /\
  rep_total_avg_preload_time r =
    (total_preload_time s' / inject_Z (total_count s'))%Q.
Proof.
  unfold print_hit_rate, pydiv. cbn.
  repeat match goal with |- context [Qeq_bool ?a ?b] => destruct (Qeq_bool a b) end;
    try discriminate.
  intros H. injection H as <- <-. repeat split.
Qed.

Lemma inv_init : inv init_state.
Proof. unfold inv, wf; cbn. repeat split; lia. Qed.

Lemma inv_step o s s' : inv s -> step o s = Some s' -> inv s'.
Proof.
  intros (Hw & Hle & Hp & Hd) Hs. pose proof (wf_step o s s' Hw Hs) as Hw'.
  destruct o as [d|[|] t|now pid]; cbn in Hs.
  - injection Hs as <-. unfold inv; cbn. auto.
  - injection Hs as <-. unfold inv, wf in *; cbn in *.
    refine (conj Hw' (conj Hle (conj _ Hd))). lia.
  - injection Hs as <-. unfold inv; cbn. auto.
  - destruct (print_hit_rate now pid s) as [[r s1]|] eqn:E; [|discriminate].
    injection Hs as <-. apply print_hit_rate_spec in E as (-> & _).
    unfold inv. refine (conj Hw' (conj _ (conj _ Hd))); cbn; [|reflexivity].
    unfold wf, req_count in *.
    destruct (Z.eqb_spec (last_cycle_hit_count s + last_cycle_miss_count s) 0); lia.
Qed.

Lemma reachable_inv_helper s : reachable s -> inv s.
Proof.
  induction 1 as [|o s s' _ IH Hs]; [exact inv_init | exact (inv_step o s s' IH Hs)].
Qed.

(** Rates computed from counts [a] and [b] over a divisor [t >= a + b]. *)
Lemma rate_pair_bounds (a b t : Z) :
  0 <= a -> 0 <= b -> a + b <= t -> 0 < t ->
  (0 <= inject_Z a / inject_Z t * 100)%Q /\
  (0 <= inject_Z b / inject_Z t * 100)%Q /\
  (inject_Z a / inject_Z t * 100 + inject_Z b / inject_Z t * 100 <= 100)%Q /\
  ((inject_Z a / inject_Z t * 100 + inject_Z b / inject_Z t * 100 == 100)%Q <->
   a + b = t).
Proof.
  intros Ha Hb Hab Ht.
  rewrite Zlt_Qlt in Ht. rewrite Zle_Qle in Ha, Hb, Hab.
  rewrite inject_Z_plus in Hab.
  assert (Hnz : ~ (inject_Z t == 0)%Q) by (intros E; rewrite E in Ht; discriminate Ht).
  assert (Hpos : forall x, (0 <= x)%Q -> (0 <= x / inject_Z t)%Q).
  { intros x Hx. apply Qle_shift_div_l; [exact Ht|]. rewrite Qmult_0_l. exact Hx. }
  assert (Hsum : (inject_Z a / inject_Z t * 100 + inject_Z b / inject_Z t * 100 ==
                  (inject_Z a + inject_Z b) / inject_Z t * 100)%Q)
    by (field; exact Hnz).
  assert (Hone : ((inject_Z a + inject_Z b) / inject_Z t <= 1)%Q).
  { apply Qle_shift_div_r; [exact Ht|]. rewrite Qmult_1_l. exact Hab. }
  assert (Hback : (inject_Z a + inject_Z b ==
                   (inject_Z a + inject_Z b) / inject_Z t * inject_Z t)%Q)
    by (field; exact Hnz).
  pose proof (Hpos _ Ha) as Pa. pose proof (Hpos _ Hb) as Pb.
  rewrite Hsum.
  revert Pa Pb Hone Hback.
  generalize ((inject_Z a + inject_Z b) / inject_Z t)%Q as u.
  generalize (inject_Z a / inject_Z t)%Q (inject_Z b / inject_Z t)%Q.
  intros x y u Pa Pb Hone Hback.
  refine (conj _ (conj _ (conj _ _))); [lra | lra | lra |].
  split.
  - intros E. assert (Eu : (u == 1)%Q) by lra.
    rewrite Eu, Qmult_1_l in Hback. rewrite <- inject_Z_plus in Hback.
    exact (proj1 (inject_Z_injective (a + b) t) Hback).
  - intros E. rewrite <- E in Hback. rewrite inject_Z_plus in Hback.
    assert (Hs : (0 < inject_Z a + inject_Z b)%Q)
      by (rewrite <- inject_Z_plus, E; exact Ht).
    assert (Eu : (u == 1)%Q).
    { apply (Qmult_inj_r u 1 (inject_Z a + inject_Z b)); [lra|].
      rewrite Qmult_1_l. symmetry. exact Hback. }
    lra.
Qed.

Lemma apply_calls_preload cl s :
  (last_cycle_preload_time (apply_calls cl s) ==
   last_cycle_preload_time s + calls_preload cl)%Q /\
  total_preload_time (apply_calls cl s) = total_preload_time s.
Proof.
  revert s. induction cl as [|[d|[|] t] cl IH]; intros s;
    cbn [apply_calls calls_preload].
  - split; [ring | reflexivity].
  - destruct (IH (set_params d s)) as [A B]. rewrite A, B. split; reflexivity.
  - destruct (IH (add_count true t s)) as [A B]. rewrite A, B. cbn.
    split; [ring | reflexivity].
  - destruct (IH (add_count false t s)) as [A B]. rewrite A, B. split; reflexivity.
Qed.

Lemma run_cycles_preload cs s s' :
  (last_cycle_preload_time s == 0)%Q -> run (cycles_ops cs) s = Some s' ->
  (total_preload_time s' == total_preload_time s + cycles_preload cs)%Q.
Proof.
  revert s. induction cs as [|c cs IH]; intros s H0 Hr.
  - cbn in Hr. injection Hr as <-. cbn. ring.
  - cbn [cycles_ops flat_map] in Hr. unfold cycle_ops in Hr.
    rewrite <- app_assoc, run_app, run_calls in Hr. cbn [app run step] in Hr.
    destruct (print_hit_rate (cycle_now c) (cycle_pid c) (apply_calls (cycle_calls c) s))
      as [[r s1]|] eqn:E; [|discriminate].
    apply print_hit_rate_spec in E as (-> & _). cbn [option_map snd] in Hr.
    rewrite (IH (flushed (apply_calls (cycle_calls c) s)) (Qeq_refl 0) Hr).
    destruct (apply_calls_preload (cycle_calls c) s) as [A B].
    cbn [flushed total_preload_time cycles_preload fold_right].
    rewrite B, A, H0. fold (cycles_preload cs). ring.
Qed.

Lemma new_calls_some calls o :
  new_calls calls (Some o) = (map (fun _ => Some o) calls, Some o).
Proof.
  induction calls as [|[n f] calls IH]; cbn; [reflexivity|]. rewrite IH. reflexivity.
Qed.

(** Extra: [CubeFileOpenInterceptor(...)] is a singleton.  Once an instance
    exists, every later call returns it, with or without arguments, and
    [_instance] never changes; from the start, all calls that succeed
    return the same object. *)
Theorem singleton_new (calls : list (nat * nat)) :
  (forall o, new_calls calls (Some o) = (map (fun _ => Some o) calls, Some o)) /\
  (forall x y, In (Some x) (fst (new_calls calls None)) ->
               In (Some y) (fst (new_calls calls None)) -> x = y).
Proof.
  split; [intros o; apply new_calls_some|].
  induction calls as [|[n f] calls IH]; cbn; [tauto|].
  destruct (Nat.eqb n 0).
  - rewrite new_calls_some. cbn.
    intros x y Hx Hy.
    assert (Hall : forall z, In (Some z) (Some f :: map (fun _ => Some f) calls) -> z = f).
    { intros z [Hz|Hz]; [injection Hz; auto|].
      apply in_map_iff in Hz as (_ & Hz & _). injection Hz; auto. }
    rewrite (Hall x Hx), (Hall y Hy). reflexivity.
  - destruct (new_calls calls None) as [ress inst] eqn:E. cbn in IH |- *.
    intros x y [Hx|Hx] [Hy|Hy]; try discriminate; auto.
Qed.



(** Extra: in every reachable state, a report on a cycle without any
    [add_count] succeeds and shows request count 1, hit rate 0%, miss rate
    0% and average preload time 0. *)
Theorem empty_cycle_report (now pid : Z) (s : state) :
  reachable s ->
  last_cycle_hit_count s + last_cycle_miss_count s = 0 ->
  exists r s', print_hit_rate now pid s = Some (r, s') /\
    rep_last_request_count r = 1 /\
    (rep_last_hit_rate r == 0)%Q /\ (rep_last_miss_rate r == 0)%Q /\
    (rep_last_avg_preload_time r == 0)%Q.
Proof.
  intros Hreach H0.
  destruct (reachable_inv_helper s Hreach) as (Hw & _ & Hpre & _).
  pose proof (wf_req_count_pos s Hw) as Hrq.
  destruct (print_hit_rate_defined now pid s) as [r E]; [unfold wf in Hw; lia|].
  exists r, (flushed s). split; [exact E|].
  assert (Hh : last_cycle_hit_count s = 0) by (unfold wf in Hw; lia).
  assert (Hm : last_cycle_miss_count s = 0) by (unfold wf in Hw; lia).
  assert (Hq : req_count s = 1) by (unfold req_count; rewrite H0; reflexivity).
  destruct (print_hit_rate_fields now pid s r _ E) as (_ & _ & Eh & Em & Ea & _).
  destruct (print_hit_rate_spec now pid s r _ E) as (_ & _ & Er & _).
  rewrite Eh, Em, Ea, Er, Hq, Hh, Hm, (Hpre Hh).
  refine (conj eq_refl (conj _ (conj _ _))); reflexivity.
Qed.

Lemma empty_cycle_report_witness :
  reachable init_state /\
  last_cycle_hit_count init_state + last_cycle_miss_count init_state = 0 /\
  exists r s', print_hit_rate 0 0 init_state = Some (r, s') /\
    rep_last_request_count r = 1 /\
    (rep_last_hit_rate r == 0)%Q /\ (rep_last_miss_rate r == 0)%Q /\
    (rep_last_avg_preload_time r == 0)%Q.
Proof.
  split; [exact reachable_init|]. split; [reflexivity|].
  apply (empty_cycle_report 0 0 init_state); [exact reachable_init | reflexivity].
Defined.

(** Extra: in every reachable state the printed cycle hit rate and miss rate
    lie between 0% and 100%. *)
Theorem cycle_rates_bounded (now pid : Z) (s s' : state) (r : report) :
  reachable s ->
  print_hit_rate now pid s = Some (r, s') ->
  (0 <= rep_last_hit_rate r <= 100)%Q /\ (0 <= rep_last_miss_rate r <= 100)%Q.
Proof.
  intros Hreach Hp.
  destruct (reachable_inv_helper s Hreach) as (Hw & _).
  destruct (print_hit_rate_fields now pid s r s' Hp) as (_ & _ & Eh & Em & _).
  rewrite Eh, Em.
  assert (Hle : last_cycle_hit_count s + last_cycle_miss_count s <= req_count s).
  { unfold wf, req_count in *.
    destruct (Z.eqb_spec (last_cycle_hit_count s + last_cycle_miss_count s) 0); lia. }
  unfold wf in Hw.
  destruct (rate_pair_bounds (last_cycle_hit_count s) (last_cycle_miss_count s)
              (req_count s)) as (A & B & C & _); try lia.
  - exact (wf_req_count_pos s (proj1 (reachable_inv_helper s Hreach))).
  - split; split; lra.
Qed.

Lemma cycle_rates_bounded_witness :
  exists r s',
    reachable init_state /\
    print_hit_rate 0 0 init_state = Some (r, s') /\
    (0 <= rep_last_hit_rate r <= 100)%Q /\ (0 <= rep_last_miss_rate r <= 100)%Q.
Proof.
  do 2 eexists. split; [exact reachable_init|]. split; [reflexivity|].
  eapply (cycle_rates_bounded 0 0 init_state); [exact reachable_init | reflexivity].
Defined.



(** Extra: a cycle of calls started with zeroed cycle counters (as after
    every report) is reported with hit count N = the number of
    [add_count(True, _)] calls, miss count M = the number of
    [add_count(False, _)] calls, request count [max(N + M, 1)] and average
    preload time (sum of the hit preload times) / [max(N + M, 1)]. *)
Theorem cycle_report (cl : list call) (s : state) (now pid : Z) :
  wf s -> last_cycle_hit_count s = 0 -> last_cycle_miss_count s = 0 ->
  last_cycle_preload_time s = 0%Q ->
  exists r s', run_then_print (map call_op cl) now pid s = Some (r, s') /\
    rep_last_hit_count r = calls_hits cl /\
    rep_last_miss_count r = calls_misses cl /\
    rep_last_request_count r = Z.max (calls_hits cl + calls_misses cl) 1 /\
    (rep_last_avg_preload_time r ==
     calls_preload cl / inject_Z (Z.max (calls_hits cl + calls_misses cl) 1))%Q.
Proof.
  intros Hw Hh Hm Hp. unfold run_then_print. rewrite run_calls.
  set (s1 := apply_calls cl s).
  destruct (apply_calls_counters cl s) as (H1 & H2 & H3 & _).
  destruct (apply_calls_preload cl s) as [P _].
  fold s1 in H1, H2, H3, P.
  pose proof (req_count_apply_calls cl s Hh Hm) as Hr. fold s1 in Hr.
  pose proof (calls_hits_nonneg cl). pose proof (calls_misses_nonneg cl).
  destruct (print_hit_rate_defined now pid s1) as [r E]; [unfold wf in Hw; lia|].
  exists r, (flushed s1). split; [exact E|].
  destruct (print_hit_rate_fields now pid s1 r _ E) as (Fh & Fm & _ & _ & Fa & _).
  destruct (print_hit_rate_spec now pid s1 r _ E) as (_ & _ & Fr & _).
  rewrite Fh, Fm, Fr, Fa, <- Hr, H1, H2, Hh, Hm.
  refine (conj eq_refl (conj eq_refl (conj eq_refl _))).
  rewrite P, Hp, Qplus_0_l. reflexivity.
Qed.

Lemma cycle_report_witness :
  wf init_state /\ last_cycle_hit_count init_state = 0 /\
  last_cycle_miss_count init_state = 0 /\ last_cycle_preload_time init_state = 0%Q /\
  exists r s',
    run_then_print (map call_op [Call_add_count true (1 # 2); Call_add_count false 0])
      0 0 init_state = Some (r, s') /\
    rep_last_hit_count r = calls_hits [Call_add_count true (1 # 2); Call_add_count false 0] /\
    rep_last_miss_count r = calls_misses [Call_add_count true (1 # 2); Call_add_count false 0] /\
    rep_last_request_count r =
      Z.max (calls_hits [Call_add_count true (1 # 2); Call_add_count false 0] +
             calls_misses [Call_add_count true (1 # 2); Call_add_count false 0]) 1 /\
    (rep_last_avg_preload_time r ==
     calls_preload [Call_add_count true (1 # 2); Call_add_count false 0] /
     inject_Z (Z.max (calls_hits [Call_add_count true (1 # 2); Call_add_count false 0] +
                      calls_misses [Call_add_count true (1 # 2); Call_add_count false 0]) 1))%Q.
Proof.
  split; [unfold wf; cbn; lia|]. split; [reflexivity|]. split; [reflexivity|].
  split; [reflexivity|].
  apply (cycle_report [Call_add_count true (1 # 2); Call_add_count false 0] init_state 0 0);
    [unfold wf; cbn; lia | reflexivity | reflexivity | reflexivity].
Defined.

(** Extra: after k whole reporting cycles from the initial state,
    [total_preload_time] equals the sum, over all cycles, of the
    [preload_time] of their [add_count(True, _)] calls. *)
Theorem total_preload_sum (cs : list cycle) :
  exists s, run (cycles_ops cs) init_state = Some s /\
    (total_preload_time s == cycles_preload cs)%Q.
Proof.
  destruct (run_cycles_totals cs init_state) as (s & Hr & _); cbn; try lia.
  exists s. split; [exact Hr|].
  rewrite (run_cycles_preload cs init_state s (Qeq_refl 0) Hr). cbn. ring.
Qed.


(** Extra: [set_params] is invisible to [print_hit_rate]: reporting after
    [set_params d] prints the same line, and only [cube_root_dir] of the
    resulting state differs. *)
Theorem set_params_print_commute (d : string) (now pid : Z) (s : state) :
  print_hit_rate now pid (set_params d s) =
  match print_hit_rate now pid s with
  | Some (r, s') => Some (r, set_params d s')
  | None => None
  end.
Proof.
  unfold print_hit_rate, pydiv. cbn.
  repeat match goal with |- context [Qeq_bool ?a ?b] => destruct (Qeq_bool a b) end;
    reflexivity.
Qed.

(** Extra: no method assigns [cube_cache_dir], so every report printed
    from a reachable state shows ["user memory"] as its cache field. *)
Theorem report_cache_dir_constant (now pid : Z) (s s' : state) (r : report) :
  reachable s -> print_hit_rate now pid s = Some (r, s') ->
  rep_cube_cache_dir r = "user memory"%string.
Proof.
  intros Hreach Hp.
  destruct (reachable_inv_helper s Hreach) as (_ & _ & _ & Hd).
  destruct (print_hit_rate_spec now pid s r s' Hp) as (_ & -> & _). exact Hd.
Qed.

Lemma report_cache_dir_constant_witness :
  exists r s',
    reachable (set_params "cache-A" init_state) /\
    print_hit_rate 0 0 (set_params "cache-A" init_state) = Some (r, s') /\
    rep_cube_cache_dir r = "user memory"%string.
Proof.
  assert (H : reachable (set_params "cache-A" init_state))
    by (apply (reachable_step (SetParams "cache-A") init_state); [exact reachable_init | reflexivity]).
  do 2 eexists. split; [exact H|]. split; [reflexivity|].
  eapply (report_cache_dir_constant 0 0 (set_params "cache-A" init_state)); [exact H | reflexivity].
Defined.

(** Extra: in every reachable state the counters are non-negative,
    [total_hit_count + total_miss_count <= total_count], the cycle preload
    time is 0 whenever the cycle has no hit, and [cube_cache_dir] is still
    ["user memory"]. *)
Theorem reachable_invariant (s : state) :
  reachable s ->
  0 <= last_cycle_hit_count s /\ 0 <= last_cycle_miss_count s /\
  0 <= total_count s /\ 0 <= total_hit_count s /\ 0 <= total_miss_count s /\
  total_hit_count s + total_miss_count s <= total_count s /\
  (last_cycle_hit_count s = 0 -> last_cycle_preload_time s = 0%Q) /\
  cube_cache_dir s = "user memory"%string.
Proof.
  intros Hreach.
  destruct (reachable_inv_helper s Hreach) as ((A & B & C & D & E) & F & G & H).
  repeat split; assumption.
Qed.

Lemma reachable_invariant_witness :
  reachable (add_count true (3 # 2) init_state) /\
  0 <= last_cycle_hit_count (add_count true (3 # 2) init_state) /\
  0 <= last_cycle_miss_count (add_count true (3 # 2) init_state) /\
  0 <= total_count (add_count true (3 # 2) init_state) /\
  0 <= total_hit_count (add_count true (3 # 2) init_state) /\
  0 <= total_miss_count (add_count true (3 # 2) init_state) /\
  total_hit_count (add_count true (3 # 2) init_state) +
  total_miss_count (add_count true (3 # 2) init_state) <=
  total_count (add_count true (3 # 2) init_state) /\
  (last_cycle_hit_count (add_count true (3 # 2) init_state) = 0 ->
   last_cycle_preload_time (add_count true (3 # 2) init_state) = 0%Q) /\
  cube_cache_dir (add_count true (3 # 2) init_state) = "user memory"%string.
Proof.
  assert (H : reachable (add_count true (3 # 2) init_state))
    by (apply (reachable_step (AddCount true (3 # 2)) init_state); [exact reachable_init | reflexivity]).
  split; [exact H|]. apply (reachable_invariant _ H).
Defined.

